(** * reader.py: PKCS#7 padding, APDU framing and the card session script

    A shallow embedding of [scripts/reader.py].  Python [bytes] values and
    lists of ints are lists of integers, exceptions are values of [exn],
    and the module-level script is a tree of console and card events that
    can be run against any environment. *)

From stdpp Require Import base decidable option numbers list strings.
From Stdlib Require Import ZArith Lia Ascii.

Local Open Scope Z_scope.

(** ** Values and exceptions *)

(** A [bytes] object or a list of ints; the elements of a [bytes] object
    satisfy [is_byte]. *)
Definition bytes := list Z.

Definition is_byte (b : Z) : Prop := 0 ≤ b < 256.

Definition Reader := string.
Definition Connection := nat.

(** The pieces of an f-string: literal text and formatted values.  The
    rendering of the formatted values ([toHexString], [:02X], [str],
    [decode]) is left to the console. *)
Inductive frag : Type :=
  | Lit (s : string)
  | FmtReader (r : Reader)
  | Fmt02X (n : Z)
  | ToHexString (l : list Z)
  | DecodeIgnore (b : bytes).

Definition text := list frag.

Inductive exn : Type :=
  | Exception (msg : text)
  | IndexError
  | ValueError
  | ZeroDivisionError
  | LibraryError (name : string).

Inductive result (A : Type) : Type :=
  | Ok (a : A)
  | Raise (e : exn).
Arguments Ok {A} a.
Arguments Raise {A} e.

#[global] Instance result_ret : MRet result := @Ok.
#[global] Instance result_bind : MBind result := λ A B f r,
  match r with
  | Ok a => f a
  | Raise e => Raise e
  end.

(** ** Python primitives on sequences *)

(** [len(l)] *)
Definition len {A} (l : list A) : Z := Z.of_nat (length l).

(** [[x] * n] for a count that fits a list index: no element when [n] is
    zero or negative. *)
Definition list_mul {A} (x : A) (n : Z) : list A := replicate (Z.to_nat n) x.

(** [bytes(l)] for a list of ints: [ValueError] unless every element is in
    [range(256)]. *)
Definition bytes_of_ints (l : list Z) : result bytes :=
  if forallb (λ b, (0 <=? b) && (b <? 256)) l then Ok l else Raise ValueError.

(** [data[-1]] *)
Definition index_last {A} (l : list A) : result A :=
  match last l with
  | Some x => Ok x
  | None => Raise IndexError
  end.

(** [l[i]] for a non-negative literal index. *)
Definition index_nat {A} (l : list A) (i : nat) : result A :=
  match l !! i with
  | Some x => Ok x
  | None => Raise IndexError
  end.

(** [data[:stop]]: a negative [stop] counts from the end, and both ends are
    clamped to the sequence. *)
Definition slice_to {A} (l : list A) (stop : Z) : list A :=
  if stop <? 0 then take (Z.to_nat (len l + stop)) l
  else take (Z.to_nat stop) l.

(** ** Padder *)

Definition pkcs7_pad (data : bytes) (block_size : Z) : result bytes :=
  if block_size =? 0 then Raise ZeroDivisionError else
  let pad_len := block_size - (len data `mod` block_size) in
  padding ← bytes_of_ints (list_mul pad_len pad_len);
  Ok (data ++ padding).

(** The value of the default argument [block_size=16]. *)
Definition default_block_size : Z := 16.

(** The pad length computed for the default block size. *)
Definition pad_len16 (data : bytes) : Z := 16 - len data `mod` 16.

Definition pkcs7_unpad (data : bytes) : result bytes :=
  pad_len ← index_last data;
  if (pad_len <? 1) || (pad_len >? 16) then Ok data
  else Ok (slice_to data (- pad_len)).

(** What the specification says of [pkcs7_unpad] on an input [data]: it
    reads the last byte [n]; for [n] from 1 to 16 the result is [data]
    with its [n] trailing bytes removed, and otherwise the result is
    [data]. *)
Definition unpad_as_specified (data : bytes) : Prop :=
  ∃ n, last data = Some n ∧
    if bool_decide (1 ≤ n ≤ 16)
    then ∃ kept removed,
           pkcs7_unpad data = Ok kept ∧ data = kept ++ removed ∧ len removed = n
    else pkcs7_unpad data = Ok data.

(** ** Python primitives on text

    A [str] is a [string] whose characters are code points below 256. *)

Definition code (c : ascii) : Z := Z.of_N (Ascii.N_of_ascii c).

Definition chr (n : Z) : ascii := Ascii.ascii_of_N (Z.to_N n).

(** Whitespace for [str.strip()]. *)
Definition is_space (c : ascii) : bool :=
  let n := code c in
  ((9 <=? n) && (n <=? 13)) || ((28 <=? n) && (n <=? 32))
  || (n =? 133) || (n =? 160).

Fixpoint lstrip (s : string) : string :=
  match s with
  | EmptyString => EmptyString
  | String c s' => if is_space c then lstrip s' else s
  end.

Fixpoint rstrip (s : string) : string :=
  match s with
  | EmptyString => EmptyString
  | String c s' =>
      match rstrip s' with
      | EmptyString => if is_space c then EmptyString else String c EmptyString
      | r => String c r
      end
  end.

(** [s.strip()] *)
Definition strip (s : string) : string := lstrip (rstrip s).

Definition lower_char (c : ascii) : ascii :=
  let n := code c in
  if ((65 <=? n) && (n <=? 90))
     || ((192 <=? n) && (n <=? 222) && negb (n =? 215))
  then chr (n + 32) else c.

(** [s.lower()] *)
Fixpoint lower (s : string) : string :=
  match s with
  | EmptyString => EmptyString
  | String c s' => String (lower_char c) (lower s')
  end.

(** [s.encode()]: UTF-8. *)
Fixpoint encode (s : string) : bytes :=
  match s with
  | EmptyString => []
  | String c s' =>
      let n := code c in
      if n <? 128 then n :: encode s'
      else (192 + n / 64) :: (128 + n `mod` 64) :: encode s'
  end.

(** Whitespace skipped by [bytes.fromhex]. *)
Definition is_ascii_space (c : ascii) : bool :=
  let n := code c in ((9 <=? n) && (n <=? 13)) || (n =? 32).

Definition hex_digit (c : ascii) : option Z :=
  let n := code c in
  if (48 <=? n) && (n <=? 57) then Some (n - 48)
  else if (97 <=? n) && (n <=? 102) then Some (n - 87)
  else if (65 <=? n) && (n <=? 70) then Some (n - 55)
  else None.

(** [bytes.fromhex(s)]: pairs of hex digits, whitespace allowed between
    pairs, [ValueError] on anything else. *)
Fixpoint fromhex (s : string) : result bytes :=
  match s with
  | EmptyString => Ok []
  | String c s' =>
      if is_ascii_space c then fromhex s'
      else
        match hex_digit c, s' with
        | Some top, String d s'' =>
            match hex_digit d with
            | Some bot => rest ← fromhex s''; Ok (top * 16 + bot :: rest)
            | None => Raise ValueError
            end
        | _, _ => Raise ValueError
        end
  end.

(** ** The script as a tree of events *)

(** What the script asks of its environment: the reader library, the card
    and the console. *)
Inductive IO : Type → Type :=
  | Readers : IO (list Reader)
  | CreateConnection (r : Reader) : IO Connection
  | Connect (c : Connection) : IO unit
  | Transmit (c : Connection) (apdu : list Z) : IO (list Z * Z * Z)
  | Input (prompt : string) : IO string
  | Print (t : text) : IO unit.

Inductive prog (A : Type) : Type :=
  | Ret (a : A)
  | Throw (e : exn)
  | Vis {X : Type} (e : IO X) (k : X → prog A).
Arguments Ret {A} a.
Arguments Throw {A} e.
Arguments Vis {A X} e k.

Fixpoint prog_bind_def {A B} (f : A → prog B) (p : prog A) : prog B :=
  match p with
  | Ret a => f a
  | Throw e => Throw e
  | Vis e k => Vis e (λ x, prog_bind_def f (k x))
  end.

#[global] Instance prog_ret : MRet prog := @Ret.
#[global] Instance prog_bind : MBind prog := @prog_bind_def.
#[global] Instance prog_fmap : FMap prog := λ A B f,
  prog_bind_def (λ a, Ret (f a)).

Definition trigger {X} (e : IO X) : prog X := Vis e Ret.

(** A pure computation that may raise. *)
Definition lift {A} (r : result A) : prog A :=
  match r with
  | Ok a => Ret a
  | Raise e => Throw e
  end.

Definition input (prompt : string) : prog string := trigger (Input prompt).
Definition print (t : text) : prog unit := trigger (Print t).

(** ** Constants *)

Definition CLA : Z := 0x80.
Definition INS_SET_KEY : Z := 0x10.
Definition INS_SET_IV : Z := 0x11.
Definition INS_ENCRYPT : Z := 0x20.
Definition INS_DECRYPT : Z := 0x30.

Definition APPLET_AID : list Z := [0xAE; 0x25; 0x6C; 0xBC; 0x00; 0x01].

(** ** Functions and command APDUs *)

(** The f-string of line 15. *)
Definition transmit_line (apdu response : list Z) (sw1 sw2 : Z) : text :=
  [Lit "APDU: "; ToHexString apdu; Lit " -> SW1SW2: ";
   Fmt02X sw1; Fmt02X sw2; Lit ", Response: "; ToHexString response].

(** Lines 13 to 16. *)
Definition transmit (apdu : list Z) (connection : Connection)
  : prog (list Z * Z * Z) :=
  '(response, sw1, sw2) ← trigger (Transmit connection apdu);
  print (transmit_line apdu response sw1 sw2);;
  mret (response, sw1, sw2).

(** Line 39. *)
Definition select_apdu : list Z :=
  [0x00; 0xA4; 0x04; 0x00; len APPLET_AID] ++ APPLET_AID.

(** Line 51. *)
Definition set_key_apdu (key : bytes) : list Z :=
  [CLA; INS_SET_KEY; 0x00; 0x00; len key] ++ key.

(** Lines 55 and 73. *)
Definition set_iv_apdu (iv : bytes) : list Z :=
  [CLA; INS_SET_IV; 0x00; 0x00; len iv] ++ iv.

(** Line 64. *)
Definition encrypt_apdu (padded_plaintext : bytes) : list Z :=
  [CLA; INS_ENCRYPT; 0x00; 0x00; len padded_plaintext] ++ padded_plaintext.

(** Line 75. *)
Definition decrypt_apdu (ciphertext : bytes) : list Z :=
  [CLA; INS_DECRYPT; 0x00; 0x00; len ciphertext] ++ ciphertext.

(** [(sw1, sw2) != (0x90, 0x00)] *)
Definition sw_ne (sw1 sw2 a b : Z) : bool := negb ((sw1 =? a) && (sw2 =? b)).

(** ** The script *)

(** Lines 58 to 80: the action prompt and its branches. *)
Definition act (connection : Connection) (iv : bytes) : prog unit :=
  action ← (λ s, lower (strip s)) <$> input "Choose action (encrypt/decrypt): ";
  if String.eqb action "encrypt" then
    plaintext ← encode <$> input "Enter plaintext: ";
    padded_plaintext ← lift (pkcs7_pad plaintext default_block_size);
    '(ciphertext, sw1, sw2) ← transmit (encrypt_apdu padded_plaintext) connection;
    print [Lit "Ciphertext (hex): "; ToHexString ciphertext]
  else if String.eqb action "decrypt" then
    ciphertext_hex ← strip <$> input "Enter ciphertext (hex): ";
    ciphertext ← lift (fromhex ciphertext_hex);
    if negb (len ciphertext `mod` 16 =? 0) then
      Throw (Exception [Lit "Ciphertext length must be multiple of 16 bytes"])
    else
      transmit (set_iv_apdu iv) connection;;
      '(plaintext, sw1, sw2) ← transmit (decrypt_apdu ciphertext) connection;
      as_bytes ← lift (bytes_of_ints plaintext);
      unpadded ← lift (pkcs7_unpad as_bytes);
      print [Lit "Plaintext: "; DecodeIgnore unpadded]
  else
    print [Lit "Invalid action. Please choose 'encrypt' or 'decrypt'."].

(** Lines 44 to 56: key and IV entry, SET_KEY and SET_IV. *)
Definition session (connection : Connection) : prog unit :=
  key_hex ← strip <$> input "Enter 32-byte AES key (hex, 64 chars): ";
  key ← lift (fromhex key_hex);
  iv_hex ← strip <$> input "Enter 16-byte IV (hex, 32 chars): ";
  iv ← lift (fromhex iv_hex);
  transmit (set_key_apdu key) connection;;
  transmit (set_iv_apdu iv) connection;;
  act connection iv.

(** The whole module-level script, lines 28 to 80. *)
Definition main : prog unit :=
  all_readers ← trigger Readers;
  if bool_decide (all_readers = []) then
    Throw (Exception [Lit "No smartcard readers found"])
  else
    reader ← lift (index_nat all_readers 1);
    print [Lit "Using reader: "; FmtReader reader];;
    connection ← trigger (CreateConnection reader);
    trigger (Connect connection);;
    '(resp, sw1, sw2) ← transmit select_apdu connection;
    if sw_ne sw1 sw2 0x90 0x00 then
      Throw (Exception [Lit "Failed to select applet: SW1SW2 = ";
                        Fmt02X sw1; Fmt02X sw2])
    else
      session connection.

(** ** Running the script against an environment *)

(** One entry of the transcript: what was asked and what the environment
    answered (a value, or an exception raised inside the library call). *)
Inductive event : Type :=
  | EvReaders (a : result (list Reader))
  | EvCreateConnection (r : Reader) (a : result Connection)
  | EvConnect (c : Connection) (a : result unit)
  | EvTransmit (c : Connection) (apdu : list Z) (a : result (list Z * Z * Z))
  | EvInput (prompt : string) (a : result string)
  | EvPrint (t : text) (a : result unit).

Definition log {X} (e : IO X) : result X → event :=
  match e in IO X return result X → event with
  | Readers => EvReaders
  | CreateConnection r => EvCreateConnection r
  | Connect c => EvConnect c
  | Transmit c apdu => EvTransmit c apdu
  | Input prompt => EvInput prompt
  | Print t => EvPrint t
  end.

(** An environment answers every request from its own state [W]. *)
Definition handler (W : Type) : Type := ∀ X, IO X → W → result X * W.

(** The transcript and the outcome of a program: nothing in the script
    catches an exception, so the first one ends the run. *)
Fixpoint run {W A} (h : handler W) (p : prog A) (w : W)
  : list event * result A :=
  match p with
  | Ret a => ([], Ok a)
  | Throw e => ([], Raise e)
  | Vis e k =>
      match h _ e w with
      | (Ok x, w') =>
          let '(tr, out) := run h (k x) w' in (log e (Ok x) :: tr, out)
      | (Raise ex, _) => ([log e (Raise ex)], Raise ex)
      end
  end.

(** The transcripts a program can produce, over all environments. *)
Fixpoint behaviour {A} (p : prog A) (tr : list event) (out : result A) : Prop :=
  match p with
  | Ret a => tr = [] ∧ out = Ok a
  | Throw e => tr = [] ∧ out = Raise e
  | Vis e k =>
      (∃ x tr', tr = log e (Ok x) :: tr' ∧ behaviour (k x) tr' out)
      ∨ (∃ ex, tr = [log e (Raise ex)] ∧ out = Raise ex)
  end.

(** The transcript and the outcome of the whole script. *)
Definition transcript {W} (h : handler W) (w : W) : list event :=
  (run h main w).1.
Definition outcome {W} (h : handler W) (w : W) : result unit :=
  (run h main w).2.

(** What kind of entry a transcript entry is: the request, with the
    instruction byte of a command APDU and the prompt of an input. *)
Definition kind (ev : event) : nat * option Z * string :=
  match ev with
  | EvReaders _ => (0%nat, None, EmptyString)
  | EvCreateConnection _ _ => (1%nat, None, EmptyString)
  | EvConnect _ _ => (2%nat, None, EmptyString)
  | EvTransmit _ apdu _ => (3%nat, apdu !! 1%nat, EmptyString)
  | EvInput prompt _ => (4%nat, None, prompt)
  | EvPrint _ _ => (5%nat, None, EmptyString)
  end.

(** The command APDUs sent during a run, in order. *)
Definition transmitted (tr : list event) : list (list Z) :=
  omap (λ ev, match ev with EvTransmit _ apdu _ => Some apdu | _ => None end) tr.

(** ** Replaying a transcript

    The environment that answers each request with the answer recorded in
    the next entry of a transcript. *)
Definition replay_stuck {X} : result X * list event :=
  (Raise (LibraryError "replay"), []).

Definition replay : handler (list event) := λ X e,
  match e in IO X return list event → result X * list event with
  | Readers => λ w,
      match w with EvReaders a :: rest => (a, rest) | _ => replay_stuck end
  | CreateConnection _ => λ w,
      match w with
      | EvCreateConnection _ a :: rest => (a, rest) | _ => replay_stuck
      end
  | Connect _ => λ w,
      match w with EvConnect _ a :: rest => (a, rest) | _ => replay_stuck end
  | Transmit _ _ => λ w,
      match w with EvTransmit _ _ a :: rest => (a, rest) | _ => replay_stuck end
  | Input _ => λ w,
      match w with EvInput _ a :: rest => (a, rest) | _ => replay_stuck end
  | Print _ => λ w,
      match w with EvPrint _ a :: rest => (a, rest) | _ => replay_stuck end
  end.

(** ** A simulated environment *)

Record world : Type := World {
  w_readers : list Reader;
  w_card : list Z → list Z * Z * Z;
  w_keyboard : list string
}.

Definition sim : handler world := λ X e,
  match e in IO X return world → result X * world with
  | Readers => λ w, (Ok (w_readers w), w)
  | CreateConnection r => λ w, (Ok 0%nat, w)
  | Connect c => λ w, (Ok (), w)
  | Transmit c apdu => λ w, (Ok (w_card w apdu), w)
  | Input prompt => λ w,
      match w_keyboard w with
      | [] => (Raise (LibraryError "EOFError"), w)
      | line :: rest => (Ok line, World (w_readers w) (w_card w) rest)
      end
  | Print t => λ w, (Ok (), w)
  end.

(** A card that echoes the payload and answers with a status word chosen
    by instruction byte. *)
Definition status_card (sw : Z → Z * Z) (apdu : list Z) : list Z * Z * Z :=
  let '(sw1, sw2) := sw (default 0 (apdu !! 1%nat)) in (drop 5 apdu, sw1, sw2).

Definition always_9000 (ins : Z) : Z * Z := (0x90, 0x00).

(** A card on which the applet is not installed: SELECT answers 6A 82. *)
Definition select_fails (ins : Z) : Z * Z :=
  if ins =? 0xA4 then (0x6A, 0x82) else (0x90, 0x00).

Definition demo_key_hex : string :=
  "000102030405060708090a0b0c0d0e0f101112131415161718191a1b1c1d1e1f".
Definition demo_iv_hex : string := "a0a1a2a3a4a5a6a7a8a9aaabacadaeaf".

(** Two readers, and the user types the key, the IV and then [lines]. *)
Definition demo_world (sw : Z → Z * Z) (lines : list string) : world :=
  World ["Reader 0"; "Reader 1"] (status_card sw)
        (demo_key_hex :: demo_iv_hex :: lines).

(** A single reader. *)
Definition one_reader_world : world :=
  World ["Reader 0"] (status_card always_9000) [].

(** Decrypt sessions: a ciphertext of 4 bytes, and one of 16 bytes. *)
Definition short_ciphertext_world : world :=
  demo_world always_9000 ["decrypt"; "00112233"].
Definition decrypt_world : world :=
  demo_world always_9000 [" Decrypt "; "00112233445566778899aabbccddee02"].

(** Sessions for the other paths of the script. *)
Definition encrypt_world : world :=
  demo_world always_9000 ["encrypt"; "hello"].
Definition invalid_action_world : world := demo_world always_9000 ["sign"].
Definition bad_key_world : world :=
  World ["Reader 0"; "Reader 1"] (status_card always_9000) ["xyz"].

(** A card that refuses DECRYPT: no response bytes, status word 6A 80. *)
Definition refusing_card (apdu : list Z) : list Z * Z * Z :=
  if default 0 (apdu !! 1%nat) =? INS_DECRYPT then ([], 0x6A, 0x80)
  else status_card always_9000 apdu.
Definition refused_decrypt_world : world :=
  World ["Reader 0"; "Reader 1"] refusing_card
        [demo_key_hex; demo_iv_hex; "decrypt";
         "00112233445566778899aabbccddee02"].

(** ** Examples *)

Example pad_hello :
  pkcs7_pad (encode "hello") default_block_size
  = Ok (encode "hello" ++ replicate 11 0x0B).
Proof. reflexivity. Qed.

Example unpad_invalid_last_byte :
  pkcs7_unpad [1; 2; 0] = Ok [1; 2; 0] ∧ pkcs7_unpad [1; 2; 17] = Ok [1; 2; 17].
Proof. split; reflexivity. Qed.

Example unpad_short_input : pkcs7_unpad [5] = Ok [].
Proof. reflexivity. Qed.

Example pad_other_block_sizes :
  pkcs7_pad [1] 0 = Raise ZeroDivisionError
  ∧ pkcs7_pad [1] (-16) = Ok [1]
  ∧ pkcs7_pad [1] 300 = Raise ValueError.
Proof. split_and!; reflexivity. Qed.

Example fromhex_whitespace :
  fromhex " 0a 0B " = Ok [10; 11]
  ∧ fromhex "0 a" = Raise ValueError
  ∧ fromhex "abc" = Raise ValueError.
Proof. split_and!; reflexivity. Qed.

Example action_normalised : lower (strip "  Decrypt ") = "decrypt"%string.
Proof. reflexivity. Qed.

Example encrypt_session :
  transmitted (transcript sim (demo_world always_9000 ["encrypt"; "hello"]))
  = [select_apdu;
     set_key_apdu (seqZ 0 32);
     set_iv_apdu (seqZ 0xa0 16);
     encrypt_apdu (encode "hello" ++ replicate 11 0x0B)]
  ∧ outcome sim (demo_world always_9000 ["encrypt"; "hello"]) = Ok ().
Proof. split; vm_compute; reflexivity. Qed.

(** ** Padder: lemmas *)

Section Padder.

Implicit Types data d : bytes.

Lemma len_app {A} (l k : list A) : len (l ++ k) = len l + len k.
Proof. unfold len. rewrite length_app. lia. Qed.

Lemma len_list_mul {A} (x : A) n : 0 ≤ n → len (list_mul x n) = n.
Proof. intros Hn. unfold len, list_mul. rewrite length_replicate. lia. Qed.

Lemma bytes_of_ints_ok l : Forall is_byte l → bytes_of_ints l = Ok l.
Proof.
  intros Hl. unfold bytes_of_ints.
  replace (forallb _ l) with true; [done|].
  symmetry. induction Hl as [|b l Hb _ IH]; [done|].
  simpl. rewrite IH. unfold is_byte in Hb.
  destruct (Z.leb_spec 0 b), (Z.ltb_spec b 256); simpl; auto; lia.
Qed.

Lemma pad_len16_range data : 1 ≤ pad_len16 data ≤ 16.
Proof.
  unfold pad_len16.
  pose proof (Z.mod_pos_bound (len data) 16 ltac:(lia)). lia.
Qed.

Lemma pkcs7_pad_16 data :
  pkcs7_pad data default_block_size
  = Ok (data ++ list_mul (pad_len16 data) (pad_len16 data)).
Proof.
  unfold pkcs7_pad, default_block_size. simpl (16 =? 0).
  fold (pad_len16 data). cbv zeta.
  rewrite bytes_of_ints_ok; [done|].
  pose proof (pad_len16_range data).
  apply Forall_replicate. unfold is_byte. lia.
Qed.

Lemma last_list_mul {A} (x : A) n : 1 ≤ n → last (list_mul x n) = Some x.
Proof.
  intros Hn. unfold list_mul.
  destruct (Z.to_nat n) as [|k] eqn:Hk; [lia|].
  replace (S k) with (k + 1)%nat by lia.
  rewrite replicate_add. simpl. apply last_snoc.
Qed.

Lemma slice_to_app_neg {A} (l k : list A) :
  k ≠ [] → slice_to (l ++ k) (- len k) = l.
Proof.
  intros Hk. unfold slice_to.
  assert (0 < len k) by (unfold len; destruct k; simpl; [done | lia]).
  destruct (Z.ltb_spec (- len k) 0); [|lia].
  rewrite len_app.
  replace (Z.to_nat (len l + len k + - len k)) with (length l)
    by (unfold len; lia).
  apply take_app_length.
Qed.

(** Unpadding what [[n] * n] was appended to, for [n] from 1 to 16. *)
Lemma pkcs7_unpad_app data n :
  1 ≤ n ≤ 16 → pkcs7_unpad (data ++ list_mul n n) = Ok data.
Proof.
  intros Hn. unfold pkcs7_unpad, index_last.
  assert (Hne : list_mul n n ≠ []).
  { intros E. apply (f_equal len) in E. rewrite len_list_mul in E by lia.
    unfold len in E. simpl in E. lia. }
  rewrite last_app, last_list_mul by lia. simpl.
  destruct (Z.ltb_spec n 1); [lia|].
  destruct (Z.gtb_spec n 16); [lia|]. simpl.
  f_equal. rewrite <- (len_list_mul n n) at 3 by lia.
  by apply slice_to_app_neg.
Qed.

End Padder.

(** ** Padder: the claims *)

(** C1: for every byte sequence [d], padding to block size 16 appends
    between 1 and 16 bytes, each equal to the number of bytes appended, and
    unpadding the result removes exactly those bytes and gives [d] back. *)
Theorem pkcs7_unpad_pad (d : bytes) :
  ∃ padding,
    pkcs7_pad d default_block_size = Ok (d ++ padding)
    ∧ 1 ≤ len padding ≤ 16
    ∧ Forall (λ b, b = len padding) padding
    ∧ pkcs7_unpad (d ++ padding) = Ok d
    ∧ (pkcs7_pad d default_block_size ≫= pkcs7_unpad) = Ok d.
Proof.
  pose proof (pad_len16_range d) as Hn.
  exists (list_mul (pad_len16 d) (pad_len16 d)).
  rewrite pkcs7_pad_16, len_list_mul by lia.
  split_and!; try done; try lia.
  - apply Forall_replicate. done.
  - by apply pkcs7_unpad_app.
  - simpl. by apply pkcs7_unpad_app.
Qed.

(** C2: with block size 16, [pkcs7_pad] appends exactly [n] bytes of value
    [n] for [n = 16 - (len(data) mod 16)]; [n] lies in 1..16 and is 16 when
    the length is already a multiple of 16; the length of the result is a
    multiple of 16; and the 16-byte input [0123456789abcdef] gets sixteen
    bytes 0x10, 32 bytes in all. *)
Theorem pkcs7_pad_appends (data : bytes) :
  let n := 16 - len data `mod` 16 in
  1 ≤ n ≤ 16
  ∧ (len data `mod` 16 = 0 → n = 16)
  ∧ (∃ padding,
       pkcs7_pad data default_block_size = Ok (data ++ padding)
       ∧ len padding = n
       ∧ Forall (λ b, b = n) padding
       ∧ len (data ++ padding) `mod` 16 = 0)
  ∧ pkcs7_pad (encode "0123456789abcdef") default_block_size
    = Ok (encode "0123456789abcdef" ++ replicate 16 0x10)
  ∧ len (encode "0123456789abcdef" ++ replicate 16 0x10) = 32.
Proof.
  intros n. pose proof (pad_len16_range data) as Hn.
  change (pad_len16 data) with n in Hn.
  split_and!; try lia; try reflexivity.
  exists (list_mul n n). rewrite pkcs7_pad_16. fold n.
  rewrite len_app, len_list_mul by lia.
  split_and!; try done.
  - apply Forall_replicate. done.
  - subst n. replace (len data + (16 - len data `mod` 16))
      with (len data `mod` 16 + (len data `div` 16 + 1) * 16 - len data `mod` 16)
      by (pose proof (Z.div_mod (len data) 16 ltac:(lia)); lia).
    replace (len data `mod` 16 + (len data `div` 16 + 1) * 16 - len data `mod` 16)
      with ((len data `div` 16 + 1) * 16) by lia.
    apply Z.mod_mul. lia.
Qed.

(** The specification's reading of [pkcs7_unpad] fails on the empty byte
    sequence: there is no last byte, and [data[-1]] raises [IndexError]. *)
Lemma pkcs7_unpad_empty_raises :
  pkcs7_unpad [] = Raise IndexError ∧ ¬ unpad_as_specified [].
Proof.
  split; [reflexivity|]. intros (n & Hlast & _). discriminate Hlast.
Qed.

(** C3, amended: for every non-empty byte sequence [data] with last byte
    [n]: if [1 <= n <= 16] the result is [data[:-n]], which is [data]
    without its [n] trailing bytes when [data] has at least [n] bytes and
    the empty sequence when it has fewer; otherwise the result is [data]
    unchanged.  The removed bytes are never compared with [n]: the input
    41 42 43 02 loses its last two bytes although 43 is not 02. *)
Theorem pkcs7_unpad_nonempty (data : bytes) (n : Z) :
  last data = Some n →
  (1 ≤ n ≤ 16 →
     pkcs7_unpad data = Ok (take (length data - Z.to_nat n) data)
     ∧ (n ≤ len data →
        ∃ removed, data = take (length data - Z.to_nat n) data ++ removed
                   ∧ len removed = n)
     ∧ (len data < n → pkcs7_unpad data = Ok []))
  ∧ (n < 1 ∨ 16 < n → pkcs7_unpad data = Ok data)
  ∧ pkcs7_unpad [0x41; 0x42; 0x43; 0x02] = Ok [0x41; 0x42].
Proof.
  intros Hlast. unfold pkcs7_unpad, index_last. rewrite Hlast. simpl.
  split_and!; [|intros Hn|reflexivity].
  - intros Hn.
    destruct (Z.ltb_spec n 1); [lia|]. destruct (Z.gtb_spec n 16); [lia|].
    simpl. unfold slice_to. destruct (Z.ltb_spec (- n) 0); [|lia].
    replace (Z.to_nat (len data + - n)) with (length data - Z.to_nat n)%nat
      by (unfold len; lia).
    split_and!; [done| |].
    + intros Hle. exists (drop (length data - Z.to_nat n) data).
      split; [by rewrite take_drop|].
      unfold len in *. rewrite length_drop. lia.
    + intros Hlt. f_equal.
      replace (length data - Z.to_nat n)%nat with 0%nat
        by (unfold len in *; lia).
      done.
  - destruct (Z.ltb_spec n 1); [done|]. destruct (Z.gtb_spec n 16); [done|]. lia.
Qed.

(** The input 41 42 43 02. *)
Lemma pkcs7_unpad_nonempty_witness :
  last [0x41; 0x42; 0x43; 0x02] = Some 2
  ∧ pkcs7_unpad [0x41; 0x42; 0x43; 0x02] = Ok [0x41; 0x42].
Proof.
  split; [reflexivity|].
  apply (pkcs7_unpad_nonempty [0x41; 0x42; 0x43; 0x02] 2). reflexivity.
Defined.

(** ** Session script: runs and transcripts *)

#[local] Arguments pkcs7_pad : simpl never.
#[local] Arguments pkcs7_unpad : simpl never.
#[local] Arguments bytes_of_ints : simpl never.
#[local] Arguments index_nat : simpl never.
#[local] Arguments fromhex : simpl never.
#[local] Arguments strip : simpl never.
#[local] Arguments lower : simpl never.
#[local] Arguments encode : simpl never.

Lemma run_behaviour {W A} (h : handler W) (p : prog A) (w : W) :
  behaviour p (run h p w).1 (run h p w).2.
Proof.
  revert w. induction p as [a|e|X e k IH]; intros w; simpl; [done..|].
  destruct (h X e w) as [[x|ex] w'].
  - left. exists x, (run h (k x) w').1. specialize (IH x w').
    destruct (run h (k x) w') as [tr out]. done.
  - right. by exists ex.
Qed.

Lemma replay_log {X} (e : IO X) (a : result X) (rest : list event) :
  replay X e (log e a :: rest) = (a, rest).
Proof. by destruct e. Qed.

(** Every transcript of a program is the one it produces when that
    transcript is replayed to it. *)
Lemma behaviour_replay {A} (p : prog A) (tr : list event) (out : result A) :
  behaviour p tr out → run replay p tr = (tr, out).
Proof.
  revert tr. induction p as [a|e|X e k IH]; intros tr; simpl.
  - by intros [-> ->].
  - by intros [-> ->].
  - intros [(x & tr' & -> & Hb) | (ex & -> & ->)]; rewrite replay_log; [|done].
    by rewrite (IH x tr' Hb).
Qed.

(** Peel the next request off a transcript of the script. *)
Ltac next_event H :=
  cbn in H;
  lazymatch type of H with
  | _ ∨ _ =>
      let x := fresh "x" in let tr := fresh "tr" in let ex := fresh "ex" in
      destruct H as [(x & tr & -> & H) | (ex & -> & ->)]
  | _ ∧ _ => destruct H as [-> ->]
  | behaviour (if bool_decide ?P then _ else _) _ _ =>
      let E := fresh "E" in destruct (bool_decide_reflect P) as [E|E]
  | behaviour (if ?b then _ else _) _ _ =>
      let E := fresh "E" in destruct b eqn:E
  | behaviour (lift ?r ≫= _) _ _ =>
      let E := fresh "E" in destruct r eqn:E
  | behaviour (match ?x with _ => _ end) _ _ => destruct x
  | behaviour (match ?x with _ => _ end ≫= _) _ _ => destruct x
  end.

Lemma main_behaviour {W} (h : handler W) (w : W) :
  behaviour main (transcript h w) (outcome h w).
Proof. apply run_behaviour. Qed.

Lemma nil_eq_app_cons {A} (e : A) pre post : [] = pre ++ e :: post → False.
Proof. by destruct pre. Qed.

Lemma cons_eq_app_cons {A} (x e : A) l pre post :
  x :: l = pre ++ e :: post →
  (pre = [] ∧ x = e ∧ l = post) ∨ (∃ pre', pre = x :: pre' ∧ l = pre' ++ e :: post).
Proof.
  destruct pre as [|y pre]; simpl; intros [= -> ->]; [by left|right; eauto].
Qed.

Ltac unfold_consts H :=
  cbv [CLA INS_SET_KEY INS_SET_IV INS_ENCRYPT INS_DECRYPT select_apdu
       set_key_apdu set_iv_apdu encrypt_apdu decrypt_apdu APPLET_AID app] in H.

Lemma cons_eq_app_cons_kind (x e : event) l pre post :
  x :: l = pre ++ e :: post → kind x ≠ kind e →
  ∃ pre', pre = x :: pre' ∧ l = pre' ++ e :: post.
Proof.
  intros [(_ & -> & _)|?]%cons_eq_app_cons Hk; [done|assumption].
Qed.

(** Locate an event in a transcript whose shape is known: [Hs] says the
    transcript is [pre ++ e :: post]. *)
Ltac locate Hs :=
  repeat lazymatch type of Hs with
    | [] = _ ++ _ :: _ => exfalso; exact (nil_eq_app_cons _ _ _ Hs)
    | _ :: _ = _ ++ _ :: _ =>
        let Heq := fresh "Heq" in
        let Htail := fresh "Htail" in
        let pre' := fresh "pre" in
        first
          [ apply cons_eq_app_cons_kind in Hs as (pre' & -> & Hs);
            [|cbv; discriminate]
          | apply cons_eq_app_cons in Hs as [(-> & Heq & Htail) | (pre' & -> & Hs)];
            [try discriminate Heq; try discriminate Htail;
             unfold_consts Heq;
             try (simplify_eq Heq; try discriminate; intros);
             try (simplify_eq Htail; try discriminate; intros)|] ]
    end.

(** Membership in a transcript whose shape is known. *)
Ltac member Hin :=
  repeat (apply elem_of_cons in Hin as [Hin|Hin]; [simplify_eq Hin; intros|]);
  try (apply elem_of_nil in Hin; destruct Hin).

Ltac is_member :=
  repeat first [apply list_elem_of_here | apply list_elem_of_further].

(** All transcripts of the script, one case per way it can end. *)
Ltac all_runs h w H :=
  pose proof (main_behaviour h w) as H;
  let tr := fresh "tr" in
  let out := fresh "out" in
  set (tr := transcript h w) in *; set (out := outcome h w) in *;
  clearbody tr out;
  unfold main, session, act in H;
  repeat next_event H.

Lemma sw_ne_true sw1 sw2 a b : sw_ne sw1 sw2 a b = true ↔ (sw1, sw2) ≠ (a, b).
Proof.
  unfold sw_ne. destruct (Z.eqb_spec sw1 a), (Z.eqb_spec sw2 b); simpl;
    split; try done; try congruence.
Qed.

Lemma sw_ne_false sw1 sw2 a b : sw_ne sw1 sw2 a b = false ↔ (sw1, sw2) = (a, b).
Proof.
  unfold sw_ne. destruct (Z.eqb_spec sw1 a), (Z.eqb_spec sw2 b); simpl;
    split; try done; try congruence.
Qed.

(** Read the next events off a transcript whose shape is known. *)
Ltac follow :=
  repeat first
    [ reflexivity
    | progress intros
    | match goal with
      | H : Raise _ = Ok _ |- _ => discriminate H
      | H : Ok _ = Ok _ |- _ => injection H as H; try subst
      | H : (_, _) = (_, _) |- _ => injection H as ? H; try subst
      | |- ∃ _, _ => eexists
      | |- _ ∧ _ => split
      end ].

(** Show that a transcript of known shape is one of the script's. *)
Ltac replay_step :=
  cbn;
  lazymatch goal with
  | |- _ ∨ _ =>
      first [ left; eexists _, _; split; [reflexivity|]
            | right; eexists; split; reflexivity ]
  | |- _ ∧ _ => split; reflexivity
  | |- behaviour (if bool_decide ?P then _ else _) _ _ =>
      first [ rewrite (bool_decide_eq_true_2 P) by assumption
            | rewrite (bool_decide_eq_false_2 P) by assumption ]
  | |- behaviour (if ?b then _ else _) _ _ =>
      match goal with E : b = _ |- _ => rewrite E end
  | |- behaviour (lift ?r ≫= _) _ _ =>
      match goal with E : r = _ |- _ => rewrite E end
  end.

(** ** Session script: the claims *)

(** C10: the script raises its own exception only when the list of readers
    is empty, and then takes [all_readers[1]]: with exactly one reader the
    run ends there with [IndexError]; it goes on only when there are at least
    two readers, and the reader it announces and connects to is the one at
    index 1, never the one at index 0. *)
Theorem second_reader_used {W} (h : handler W) (w : W)
    (rs : list Reader) (rest : list event) :
  transcript h w = EvReaders (Ok rs) :: rest →
  (rs = [] → rest = []
     ∧ outcome h w = Raise (Exception [Lit "No smartcard readers found"]))
  ∧ ((length rs = 1)%nat → rest = [] ∧ outcome h w = Raise IndexError)
  ∧ ((2 ≤ length rs)%nat →
       ∃ r a rest', rs !! 1%nat = Some r
         ∧ rest = EvPrint [Lit "Using reader: "; FmtReader r] a :: rest')
  ∧ (rest ≠ [] → (2 ≤ length rs)%nat)
  ∧ (∀ r a, EvCreateConnection r a ∈ rest → rs !! 1%nat = Some r).
Proof.
  intros Hs. all_runs h w H.
  all: simplify_eq.
  all: try match goal with
       | |- context [length ?l = 1%nat] =>
           is_var l; destruct l as [|r0 [|r1 rs']]
       end.
  all: try match goal with
       | E : index_nat _ _ = _ |- _ => cbv in E
       end; simplify_eq.
  all: split_and!; try done; try (simpl; lia).
  all: try (intros _; by eauto).
  all: intros r a' Hin; member Hin; by subst.
Qed.


(** C4: once the SELECT APDU has been transmitted and logged, the run ends
    with the script's own exception exactly when the status word is not
    (0x90, 0x00); on (0x90, 0x00) the next thing that happens is the prompt
    for the key. *)
Theorem select_status_checked {W} (h : handler W) (w : W)
    (pre post : list event) (c : Connection) (resp : list Z) (sw1 sw2 : Z)
    (t : text) :
  transcript h w
  = pre ++ EvTransmit c select_apdu (Ok (resp, sw1, sw2))
        :: EvPrint t (Ok ()) :: post →
  ((sw1, sw2) ≠ (0x90, 0x00) →
     post = []
     ∧ outcome h w
       = Raise (Exception [Lit "Failed to select applet: SW1SW2 = ";
                           Fmt02X sw1; Fmt02X sw2]))
  ∧ ((sw1, sw2) = (0x90, 0x00) →
       ∃ a post',
         post = EvInput "Enter 32-byte AES key (hex, 64 chars): " a :: post')
  ∧ ((∃ e, post = [] ∧ outcome h w = Raise e) ↔ (sw1, sw2) ≠ (0x90, 0x00)).
Proof.
  intros Hs. all_runs h w H.
  all: locate Hs.
  all: subst.
  all: first [apply sw_ne_true in E1 | apply sw_ne_false in E1].
  all: split_and!;
    [ intros ?; try done
    | intros ?; try done; by eauto
    | split; [intros (? & ? & ?); try done | intros ?; try done; by eauto] ].
Qed.


(** C6: in the decrypt flow, when the ciphertext typed by the user decodes
    to a number of bytes that is not a multiple of 16, the run ends at once
    with the script's exception and nothing more is sent to the card; when
    it is a multiple of 16 the script goes on and sends SET_IV. *)
Theorem ciphertext_length_checked {W} (h : handler W) (w : W)
    (pre post : list event) (ciphertext_hex : string) (ciphertext : bytes) :
  transcript h w
  = pre ++ EvInput "Enter ciphertext (hex): " (Ok ciphertext_hex) :: post →
  fromhex (strip ciphertext_hex) = Ok ciphertext →
  (len ciphertext `mod` 16 ≠ 0 →
     post = []
     ∧ transmitted (transcript h w) = transmitted pre
     ∧ outcome h w
       = Raise (Exception
                  [Lit "Ciphertext length must be multiple of 16 bytes"]))
  ∧ (len ciphertext `mod` 16 = 0 →
       ∃ c iv a post', post = EvTransmit c (set_iv_apdu iv) a :: post').
Proof.
  intros Hs Hct. all_runs h w H.
  all: locate Hs.
  all: subst.
  all: match goal with
       | E : fromhex ?s = ?r, E' : fromhex ?s = Ok ?c |- _ =>
           tryif constr_eq r (Ok c) then fail
           else (rewrite E' in E; simplify_eq E; intros; subst)
       end.
  all: match goal with
       | E : negb _ = true |- _ => apply negb_true_iff, Z.eqb_neq in E
       | E : negb _ = false |- _ => apply negb_false_iff, Z.eqb_eq in E
       end.
  all: split; intros ?; try done; follow.
Qed.

(** C7: every command APDU sent in any run is [CLA, INS, P1, P2, LEN]
    followed by the payload, and the entry at index 4 is the payload length.
    The payload is the applet AID for SELECT (00 A4 04 00), the key decoded
    from the user's input for SET_KEY (80 10 00 00), the decoded IV for
    SET_IV (80 11 00 00), the padded encoding of the plaintext line for
    ENCRYPT (80 20 00 00) and the decoded ciphertext for DECRYPT
    (80 30 00 00); with a 32-byte key SET_KEY is 80 10 00 00 20 followed by
    the key. *)
Theorem command_apdus_framed {W} (h : handler W) (w : W)
    (pre post : list event) (c : Connection) (apdu : list Z)
    (a : result (list Z * Z * Z)) :
  transcript h w = pre ++ EvTransmit c apdu a :: post →
  ∃ payload,
    apdu !! 4%nat = Some (len payload)
    ∧ ((apdu = [0x00; 0xA4; 0x04; 0x00; len payload] ++ payload
        ∧ payload = [0xAE; 0x25; 0x6C; 0xBC; 0x00; 0x01])
       ∨ (apdu = [0x80; 0x10; 0x00; 0x00; len payload] ++ payload
          ∧ (∃ key_hex,
               EvInput "Enter 32-byte AES key (hex, 64 chars): " (Ok key_hex)
                 ∈ pre
               ∧ fromhex (strip key_hex) = Ok payload)
          ∧ (length payload = 32%nat →
             apdu = [0x80; 0x10; 0x00; 0x00; 0x20] ++ payload))
       ∨ (apdu = [0x80; 0x11; 0x00; 0x00; len payload] ++ payload
          ∧ ∃ iv_hex,
              EvInput "Enter 16-byte IV (hex, 32 chars): " (Ok iv_hex) ∈ pre
              ∧ fromhex (strip iv_hex) = Ok payload)
       ∨ (apdu = [0x80; 0x20; 0x00; 0x00; len payload] ++ payload
          ∧ ∃ plaintext,
              EvInput "Enter plaintext: " (Ok plaintext) ∈ pre
              ∧ pkcs7_pad (encode plaintext) 16 = Ok payload)
       ∨ (apdu = [0x80; 0x30; 0x00; 0x00; len payload] ++ payload
          ∧ ∃ ciphertext_hex,
              EvInput "Enter ciphertext (hex): " (Ok ciphertext_hex) ∈ pre
              ∧ fromhex (strip ciphertext_hex) = Ok payload)).
Proof.
  intros Hs. all_runs h w H.
  all: locate Hs.
  all: subst.
  all: eexists; split; [reflexivity|].
  all: first
    [ solve [left; split; reflexivity]
    | solve [right; left; split; [reflexivity|]; split;
               [eexists; split; [is_member|eassumption]
               |intros Hk; unfold len; rewrite Hk; reflexivity]]
    | solve [right; right; left; split; [reflexivity|];
               eexists; split; [is_member|eassumption]]
    | solve [right; right; right; left; split; [reflexivity|];
               eexists; split; [is_member|eassumption]]
    | solve [right; right; right; right; split; [reflexivity|];
               eexists; split; [is_member|eassumption]] ].
Qed.

(** C8: whenever a DECRYPT command is sent, the command sent just before
    it is SET_IV, 80 11 00 00 LEN followed by the IV bytes that the user
    typed at the start of the session, the same command that was already
    sent after SET_KEY. *)
Theorem iv_reset_before_decrypt {W} (h : handler W) (w : W)
    (pre post : list event) (c : Connection) (p : list Z)
    (a : result (list Z * Z * Z)) :
  transcript h w = pre ++ EvTransmit c (0x80 :: 0x30 :: p) a :: post →
  ∃ iv_hex iv earlier a1 a2 t a3,
    pre = earlier
          ++ [EvTransmit c ([0x80; 0x11; 0x00; 0x00; len iv] ++ iv) a2;
              EvPrint t a3]
    ∧ EvInput "Enter 16-byte IV (hex, 32 chars): " (Ok iv_hex) ∈ earlier
    ∧ fromhex (strip iv_hex) = Ok iv
    ∧ EvTransmit c ([0x80; 0x11; 0x00; 0x00; len iv] ++ iv) a1 ∈ earlier.
Proof.
  intros Hs. all_runs h w H.
  all: locate Hs.
  all: subst.
  all: eexists _, _, _, _, _, _, _.
  all: split;
    [lazymatch goal with
     | |- ?l = ?k ++ _ =>
         let n := eval cbv in (length l - 2)%nat in
         unify k (take n l); reflexivity
     end|].
  all: cbn [take].
  all: split; [is_member|].
  all: split; [eassumption|is_member].
Qed.

(** C9: the applet AID is AE 25 6C BC 00 01 and the SELECT APDU is
    00 A4 04 00 06 AE 25 6C BC 00 01; it is the first command of every run
    that sends one, and every command after it has class byte 0x80 and one
    of the four instruction bytes. *)
Theorem select_apdu_bytes {W} (h : handler W) (w : W) :
  APPLET_AID = [0xAE; 0x25; 0x6C; 0xBC; 0x00; 0x01]
  ∧ select_apdu
    = [0x00; 0xA4; 0x04; 0x00; 0x06; 0xAE; 0x25; 0x6C; 0xBC; 0x00; 0x01]
  ∧ (transmitted (transcript h w) = []
     ∨ ∃ rest,
         transmitted (transcript h w) = select_apdu :: rest
         ∧ Forall (λ apdu,
                     apdu !! 0%nat = Some 0x80
                     ∧ ∃ ins, apdu !! 1%nat = Some ins
                              ∧ ins ∈ [INS_SET_KEY; INS_SET_IV;
                                       INS_ENCRYPT; INS_DECRYPT]) rest).
Proof.
  split_and!; [reflexivity..|].
  all_runs h w H.
  all: cbn [transmitted omap list_omap].
  all: first [by left | right].
  all: eexists; split; [reflexivity|].
  all: repeat constructor.
  all: eexists; split; [reflexivity|is_member].
Qed.

(** ** The session theorems on the simulated environment *)

(** One reader: the run ends with [IndexError] right after [readers()]. *)
Lemma second_reader_used_witness :
  transcript sim one_reader_world = EvReaders (Ok ["Reader 0"]) :: []
  ∧ outcome sim one_reader_world = Raise IndexError.
Proof.
  assert (Hs : transcript sim one_reader_world
               = EvReaders (Ok ["Reader 0"]) :: []) by reflexivity.
  split; [exact Hs|].
  apply (second_reader_used sim one_reader_world ["Reader 0"] [] Hs).
  reflexivity.
Defined.

(** SELECT answered 6A 82: the run ends with the script's exception. *)
Lemma select_status_checked_witness :
  transcript sim (demo_world select_fails [])
  = take 4 (transcript sim (demo_world select_fails []))
    ++ EvTransmit 0%nat select_apdu (Ok (APPLET_AID, 0x6A, 0x82))
    :: EvPrint (transmit_line select_apdu APPLET_AID 0x6A 0x82) (Ok ()) :: []
  ∧ outcome sim (demo_world select_fails [])
    = Raise (Exception [Lit "Failed to select applet: SW1SW2 = ";
                        Fmt02X 0x6A; Fmt02X 0x82]).
Proof.
  assert (Hs : transcript sim (demo_world select_fails [])
    = take 4 (transcript sim (demo_world select_fails []))
      ++ EvTransmit 0%nat select_apdu (Ok (APPLET_AID, 0x6A, 0x82))
      :: EvPrint (transmit_line select_apdu APPLET_AID 0x6A 0x82) (Ok ()) :: [])
    by (vm_compute; reflexivity).
  split; [exact Hs|].
  apply (select_status_checked sim _ _ _ _ _ _ _ _ Hs). discriminate.
Defined.

(** A ciphertext of 4 bytes: the run ends at the ciphertext prompt. *)
Lemma ciphertext_length_checked_witness :
  transcript sim short_ciphertext_world
  = take 13 (transcript sim short_ciphertext_world)
    ++ EvInput "Enter ciphertext (hex): " (Ok "00112233") :: []
  ∧ fromhex (strip "00112233") = Ok [0x00; 0x11; 0x22; 0x33]
  ∧ outcome sim short_ciphertext_world
    = Raise (Exception [Lit "Ciphertext length must be multiple of 16 bytes"]).
Proof.
  assert (Hs : transcript sim short_ciphertext_world
    = take 13 (transcript sim short_ciphertext_world)
      ++ EvInput "Enter ciphertext (hex): " (Ok "00112233") :: [])
    by (vm_compute; reflexivity).
  assert (Hct : fromhex (strip "00112233") = Ok [0x00; 0x11; 0x22; 0x33])
    by (vm_compute; reflexivity).
  split_and!; [exact Hs|exact Hct|].
  apply (ciphertext_length_checked sim _ _ _ _ _ Hs Hct). discriminate.
Defined.

(** A ciphertext of 16 bytes: SET_IV is sent again just before DECRYPT. *)
Lemma iv_reset_before_decrypt_witness :
  let tr := transcript sim decrypt_world in
  let ct := [0x00; 0x11; 0x22; 0x33; 0x44; 0x55; 0x66; 0x77; 0x88; 0x99;
             0xaa; 0xbb; 0xcc; 0xdd; 0xee; 0x02] in
  tr = take 16 tr
       ++ EvTransmit 0%nat (0x80 :: 0x30 :: 0x00 :: 0x00 :: 0x10 :: ct)
            (Ok (ct, 0x90, 0x00))
       :: drop 17 tr
  ∧ ∃ iv_hex iv earlier a1 a2 t a3,
      take 16 tr
      = earlier
        ++ [EvTransmit 0%nat ([0x80; 0x11; 0x00; 0x00; len iv] ++ iv) a2;
            EvPrint t a3]
      ∧ EvInput "Enter 16-byte IV (hex, 32 chars): " (Ok iv_hex) ∈ earlier
      ∧ fromhex (strip iv_hex) = Ok iv
      ∧ EvTransmit 0%nat ([0x80; 0x11; 0x00; 0x00; len iv] ++ iv) a1
          ∈ earlier.
Proof.
  intros tr ct.
  assert (Hs : tr = take 16 tr
       ++ EvTransmit 0%nat (0x80 :: 0x30 :: 0x00 :: 0x00 :: 0x10 :: ct)
            (Ok (ct, 0x90, 0x00))
       :: drop 17 tr) by (vm_compute; reflexivity).
  split; [exact Hs|].
  exact (iv_reset_before_decrypt sim decrypt_world _ _ _ _ _ Hs).
Defined.

(** SET_KEY with the 32-byte key of the session: 80 10 00 00 20 and the
    key. *)
Lemma command_apdus_framed_witness :
  let tr := transcript sim encrypt_world in
  let key := seqZ 0 32 in
  tr = take 8 tr
       ++ EvTransmit 0%nat ([0x80; 0x10; 0x00; 0x00; 0x20] ++ key)
            (Ok (key, 0x90, 0x00))
       :: drop 9 tr
  ∧ ∃ payload,
      ([0x80; 0x10; 0x00; 0x00; 0x20] ++ key) !! 4%nat = Some (len payload)
      ∧ (([0x80; 0x10; 0x00; 0x00; 0x20] ++ key
          = [0x00; 0xA4; 0x04; 0x00; len payload] ++ payload
          ∧ payload = [0xAE; 0x25; 0x6C; 0xBC; 0x00; 0x01])
         ∨ ([0x80; 0x10; 0x00; 0x00; 0x20] ++ key
            = [0x80; 0x10; 0x00; 0x00; len payload] ++ payload
            ∧ (∃ key_hex,
                 EvInput "Enter 32-byte AES key (hex, 64 chars): " (Ok key_hex)
                   ∈ take 8 tr
                 ∧ fromhex (strip key_hex) = Ok payload)
            ∧ (length payload = 32%nat →
               [0x80; 0x10; 0x00; 0x00; 0x20] ++ key
               = [0x80; 0x10; 0x00; 0x00; 0x20] ++ payload))
         ∨ ([0x80; 0x10; 0x00; 0x00; 0x20] ++ key
            = [0x80; 0x11; 0x00; 0x00; len payload] ++ payload
            ∧ ∃ iv_hex,
                EvInput "Enter 16-byte IV (hex, 32 chars): " (Ok iv_hex)
                  ∈ take 8 tr
                ∧ fromhex (strip iv_hex) = Ok payload)
         ∨ ([0x80; 0x10; 0x00; 0x00; 0x20] ++ key
            = [0x80; 0x20; 0x00; 0x00; len payload] ++ payload
            ∧ ∃ plaintext,
                EvInput "Enter plaintext: " (Ok plaintext) ∈ take 8 tr
                ∧ pkcs7_pad (encode plaintext) 16 = Ok payload)
         ∨ ([0x80; 0x10; 0x00; 0x00; 0x20] ++ key
            = [0x80; 0x30; 0x00; 0x00; len payload] ++ payload
            ∧ ∃ ciphertext_hex,
                EvInput "Enter ciphertext (hex): " (Ok ciphertext_hex)
                  ∈ take 8 tr
                ∧ fromhex (strip ciphertext_hex) = Ok payload)).
Proof.
  intros tr key.
  assert (Hs : tr = take 8 tr
       ++ EvTransmit 0%nat ([0x80; 0x10; 0x00; 0x00; 0x20] ++ key)
            (Ok (key, 0x90, 0x00))
       :: drop 9 tr) by (vm_compute; reflexivity).
  split; [exact Hs|].
  exact (command_apdus_framed sim encrypt_world _ _ _ _ _ Hs).
Defined.

(** ** Padder: other block sizes and arbitrary input *)

Lemma bytes_of_ints_raise l :
  ¬ Forall is_byte l → bytes_of_ints l = Raise ValueError.
Proof.
  intros Hl. unfold bytes_of_ints.
  destruct (forallb _ l) eqn:E; [|done].
  destruct Hl. apply Forall_forall. intros b Hb.
  apply list_elem_of_In in Hb.
  apply (proj1 (forallb_forall _ _) E) in Hb.
  apply andb_true_iff in Hb as [H0 H1].
  apply Z.leb_le in H0. apply Z.ltb_lt in H1. done.
Qed.

Lemma bytes_of_ints_inv l b : bytes_of_ints l = Ok b → b = l ∧ Forall is_byte b.
Proof.
  intros Hb. destruct (decide (Forall is_byte l)) as [Hl|Hl].
  - rewrite bytes_of_ints_ok in Hb by done. by simplify_eq.
  - rewrite bytes_of_ints_raise in Hb by done. done.
Qed.

(** The pad length lies in 1..block_size for a positive block size. *)
Lemma pad_len_range (data : bytes) bs :
  0 < bs → 1 ≤ bs - len data `mod` bs ≤ bs.
Proof. intros Hbs. pose proof (Z.mod_pos_bound (len data) bs Hbs). lia. Qed.

Lemma pkcs7_pad_fits (data : bytes) bs :
  bs ≠ 0 → bs - len data `mod` bs ≤ 255 →
  pkcs7_pad data bs
  = Ok (data ++ list_mul (bs - len data `mod` bs) (bs - len data `mod` bs)).
Proof.
  intros Hbs Hn. unfold pkcs7_pad.
  destruct (Z.eqb_spec bs 0); [done|]. cbv zeta.
  rewrite bytes_of_ints_ok; [done|].
  unfold list_mul. destruct (decide (bs - len data `mod` bs ≤ 0)) as [Hneg|Hpos].
  - replace (Z.to_nat _) with 0%nat by lia. constructor.
  - apply Forall_replicate. unfold is_byte. lia.
Qed.

Lemma len_mod_block (data : bytes) n bs :
  0 < bs → n = bs - len data `mod` bs → (len data + n) `mod` bs = 0.
Proof.
  intros Hbs ->.
  replace (len data + (bs - len data `mod` bs))
    with ((len data `div` bs + 1) * bs)
    by (pose proof (Z.div_mod (len data) bs ltac:(lia)); lia).
  apply Z.mod_mul. lia.
Qed.

(** Unpadding after [[n] * n] with [n] above 16: nothing is removed. *)
Lemma pkcs7_unpad_app_large (data : bytes) n :
  16 < n → pkcs7_unpad (data ++ list_mul n n) = Ok (data ++ list_mul n n).
Proof.
  intros Hn. unfold pkcs7_unpad, index_last.
  rewrite last_app, last_list_mul by lia. simpl.
  destruct (Z.ltb_spec n 1); [done|].
  destruct (Z.gtb_spec n 16); [done|lia].
Qed.

(** X1: for every block size from 1 to 255, [pkcs7_pad] succeeds: it
    appends [n = block_size - len(data) mod block_size] bytes of value [n],
    with [n] in 1..block_size, and the result's length is a multiple of the
    block size. *)
Theorem pkcs7_pad_any_block (data : bytes) (block_size : Z) :
  1 ≤ block_size ≤ 255 →
  let n := block_size - len data `mod` block_size in
  1 ≤ n ≤ block_size
  ∧ ∃ padding,
      pkcs7_pad data block_size = Ok (data ++ padding)
      ∧ len padding = n
      ∧ Forall (λ b, b = n) padding
      ∧ len (data ++ padding) `mod` block_size = 0.
Proof.
  intros Hbs n. pose proof (pad_len_range data block_size ltac:(lia)) as Hn.
  fold n in Hn. split; [done|].
  exists (list_mul n n). rewrite pkcs7_pad_fits by lia. fold n.
  rewrite len_app, len_list_mul by lia.
  split_and!; [done..| |].
  - by apply Forall_replicate.
  - apply len_mod_block; [lia|done].
Qed.

Lemma pkcs7_pad_any_block_witness :
  1 ≤ 8 ≤ 255
  ∧ ∃ padding,
      pkcs7_pad [1; 2; 3] 8 = Ok ([1; 2; 3] ++ padding)
      ∧ len padding = 5
      ∧ Forall (λ b, b = 5) padding
      ∧ len ([1; 2; 3] ++ padding) `mod` 8 = 0.
Proof.
  split; [lia|].
  apply (pkcs7_pad_any_block [1; 2; 3] 8). lia.
Defined.

(** X2: the other block sizes, as far as a list of that many entries
    can be built (here from -2^31 to 65535).  Block size 0 raises
    [ZeroDivisionError]; a negative block size gives a pad length below
    zero, so nothing is appended and [data] comes back unchanged; a block
    size above 255 raises [ValueError] exactly when the pad length exceeds
    255, since [bytes(...)] refuses the value. *)
Theorem pkcs7_pad_bad_block_size (data : bytes) (block_size : Z) :
  -2147483648 ≤ block_size ≤ 65535 →
  (block_size = 0 → pkcs7_pad data block_size = Raise ZeroDivisionError)
  ∧ (block_size < 0 → pkcs7_pad data block_size = Ok data)
  ∧ (255 < block_size →
       let n := block_size - len data `mod` block_size in
       (255 < n → pkcs7_pad data block_size = Raise ValueError)
       ∧ (n ≤ 255 →
          pkcs7_pad data block_size = Ok (data ++ replicate (Z.to_nat n) n))).
Proof.
  intros _. split_and!.
  - by intros ->.
  - intros Hbs. rewrite pkcs7_pad_fits.
    + pose proof (Z.mod_neg_bound (len data) block_size Hbs).
      unfold list_mul. replace (Z.to_nat _) with 0%nat by lia.
      simpl. by rewrite app_nil_r.
    + lia.
    + pose proof (Z.mod_neg_bound (len data) block_size Hbs). lia.
  - intros Hbs n. split; intros Hn.
    + unfold pkcs7_pad. destruct (Z.eqb_spec block_size 0); [lia|].
      cbv zeta. fold n.
      rewrite bytes_of_ints_raise; [done|].
      intros HF. unfold list_mul in HF.
      destruct (Z.to_nat n) as [|k] eqn:Hk; [lia|].
      inversion HF as [|? ? Hb _]. unfold is_byte in Hb. lia.
    + by rewrite pkcs7_pad_fits by lia.
Qed.

(** Block size 256 on the empty input: the pad length is 256. *)
Lemma pkcs7_pad_bad_block_size_witness :
  -2147483648 ≤ 256 ≤ 65535
  ∧ 255 < 256 - len ([] : bytes) `mod` 256
  ∧ pkcs7_pad [] 256 = Raise ValueError.
Proof.
  assert (Hn : 255 < 256 - len ([] : bytes) `mod` 256) by reflexivity.
  split; [lia|]. split; [exact Hn|].
  exact (proj1 (proj2 (proj2 (pkcs7_pad_bad_block_size [] 256 ltac:(lia)))
                  ltac:(lia)) Hn).
Defined.

(** X3: [pkcs7_unpad] accepts pad lengths up to 16 only.  For a block size
    from 1 to 255, unpadding the padded data gives the data back when the
    pad length is at most 16; when it is above 16 the padded data comes back
    as it is, padding included. *)
Theorem pkcs7_unpad_pad_any_block (data : bytes) (block_size : Z) :
  1 ≤ block_size ≤ 255 →
  let n := block_size - len data `mod` block_size in
  (n ≤ 16 → (pkcs7_pad data block_size ≫= pkcs7_unpad) = Ok data)
  ∧ (16 < n →
       (pkcs7_pad data block_size ≫= pkcs7_unpad) = pkcs7_pad data block_size
       ∧ (pkcs7_pad data block_size ≫= pkcs7_unpad) ≠ Ok data).
Proof.
  intros Hbs n. pose proof (pad_len_range data block_size ltac:(lia)) as Hn.
  fold n in Hn. rewrite pkcs7_pad_fits by lia. fold n. simpl.
  split; intros Hn'.
  - apply pkcs7_unpad_app. lia.
  - rewrite pkcs7_unpad_app_large by done. split; [done|].
    intros [= E]. apply (f_equal len) in E.
    rewrite len_app, len_list_mul in E by lia. lia.
Qed.

Lemma pkcs7_unpad_pad_any_block_witness :
  1 ≤ 32 ≤ 255
  ∧ (pkcs7_pad [1; 2; 3] 32 ≫= pkcs7_unpad) = pkcs7_pad [1; 2; 3] 32
  ∧ (pkcs7_pad [1; 2; 3] 32 ≫= pkcs7_unpad) ≠ Ok [1; 2; 3].
Proof.
  split; [lia|].
  apply (pkcs7_unpad_pad_any_block [1; 2; 3] 32); [lia|].
  vm_compute. reflexivity.
Defined.

(** X4: [pkcs7_unpad] raises only on the empty input, and then
    [IndexError]; on any other input it returns a prefix of the input that is
    at most 16 bytes shorter. *)
Theorem pkcs7_unpad_prefix (data : bytes) :
  (pkcs7_unpad data = Raise IndexError ↔ data = [])
  ∧ (∀ e, pkcs7_unpad data = Raise e → e = IndexError)
  ∧ (∀ r, pkcs7_unpad data = Ok r →
       r `prefix_of` data ∧ len data - 16 ≤ len r ≤ len data).
Proof.
  unfold pkcs7_unpad, index_last.
  destruct (last data) as [n|] eqn:Hlast; simpl.
  - assert (data ≠ []) by (intros ->; done).
    destruct ((n <? 1) || (n >? 16)) eqn:Hn.
    + split_and!; [done|done|]. intros r [= <-]. split; [done|lia].
    + apply orb_false_iff in Hn as [H1 H16].
      apply Z.ltb_ge in H1. rewrite Z.gtb_ltb in H16. apply Z.ltb_ge in H16.
      split_and!; [done|done|]. intros r [= <-].
      unfold slice_to. destruct (Z.ltb_spec (- n) 0); [|lia].
      split; [apply prefix_take|].
      unfold len. rewrite length_take. lia.
  - apply last_None in Hlast as ->.
    split_and!; [done| |done]. by intros e [= <-].
Qed.

(** ** Text primitives: what [fromhex] and [encode] return *)

Lemma code_range c : 0 ≤ code c < 256.
Proof.
  unfold code. pose proof (Ascii.N_ascii_bounded c). lia.
Qed.

Lemma hex_digit_range c d : hex_digit c = Some d → 0 ≤ d < 16.
Proof.
  unfold hex_digit. intros H.
  repeat match type of H with
         | context [if ?b then _ else _] => destruct b eqn:?
         end; simplify_eq;
    repeat match goal with
           | E : _ && _ = true |- _ => apply andb_true_iff in E as [? ?]
           | E : (_ <=? _) = true |- _ => apply Z.leb_le in E
           end; lia.
Qed.

Lemma fromhex_String c s :
  fromhex (String c s)
  = if is_ascii_space c then fromhex s
    else match hex_digit c, s with
         | Some top, String d s'' =>
             match hex_digit d with
             | Some bot => rest ← fromhex s''; Ok (top * 16 + bot :: rest)
             | None => Raise ValueError
             end
         | _, _ => Raise ValueError
         end.
Proof. reflexivity. Qed.

(** Induction over the way [fromhex] consumes its input. *)
Lemma fromhex_ind (P : string → result bytes → Prop) :
  P EmptyString (Ok []) →
  (∀ c s, is_ascii_space c = true → P s (fromhex s) →
          P (String c s) (fromhex s)) →
  (∀ c d s top bot, is_ascii_space c = false →
     hex_digit c = Some top → hex_digit d = Some bot → P s (fromhex s) →
     P (String c (String d s)) (rest ← fromhex s; Ok (top * 16 + bot :: rest))) →
  (∀ c s, is_ascii_space c = false →
     (hex_digit c = None ∨ s = EmptyString
      ∨ ∃ d s', s = String d s' ∧ hex_digit d = None) →
     P (String c s) (Raise ValueError)) →
  ∀ s, P s (fromhex s).
Proof.
  intros Hnil Hsp Hpair Hbad s.
  assert (∀ n s, (String.length s ≤ n)%nat → P s (fromhex s)) as Hn.
  { clear s. induction n as [|n IH]; intros s Hlen.
    - destruct s; [exact Hnil|simpl in Hlen; lia].
    - destruct s as [|c s]; [exact Hnil|]. simpl in Hlen.
      rewrite fromhex_String. destruct (is_ascii_space c) eqn:Hc.
      + apply Hsp; [done|]. apply IH. lia.
      + destruct (hex_digit c) as [top|] eqn:Htop; [|apply Hbad; auto].
        destruct s as [|d s]; [apply Hbad; auto|].
        destruct (hex_digit d) as [bot|] eqn:Hbot; [|apply Hbad; eauto 6].
        apply Hpair; try done. apply IH. simpl in Hlen. lia. }
  by apply (Hn (String.length s)).
Qed.

Lemma fromhex_bytes s b : fromhex s = Ok b → Forall is_byte b.
Proof.
  revert b. pattern s, (fromhex s). apply fromhex_ind; clear s.
  - by intros b [= <-].
  - done.
  - intros c d s top bot _ Htop Hbot IH b.
    destruct (fromhex s) as [rest|]; simpl; [|done]. intros [= <-].
    constructor; [|by apply IH].
    apply hex_digit_range in Htop, Hbot. unfold is_byte. lia.
  - done.
Qed.

Lemma fromhex_raises s e : fromhex s = Raise e → e = ValueError.
Proof.
  pattern s, (fromhex s). apply fromhex_ind; clear s.
  - done.
  - done.
  - intros c d s top bot _ _ _ IH.
    destruct (fromhex s) as [rest|e']; simpl; [done|]. intros [= <-]. by apply IH.
  - by intros c s _ _ [= <-].
Qed.

Lemma encode_String c s :
  encode (String c s)
  = if code c <? 128 then code c :: encode s
    else (192 + code c / 64) :: (128 + code c `mod` 64) :: encode s.
Proof. reflexivity. Qed.

Lemma encode_bytes s : Forall is_byte (encode s).
Proof.
  induction s as [|c s IH]; [constructor|]. rewrite encode_String.
  pose proof (code_range c).
  destruct (Z.ltb_spec (code c) 128).
  - constructor; [unfold is_byte; lia|done].
  - pose proof (Z.mod_pos_bound (code c) 64 ltac:(lia)).
    assert (code c `div` 64 < 4) by (apply Z.div_lt_upper_bound; lia).
    assert (0 ≤ code c `div` 64) by (apply Z.div_pos; lia).
    repeat constructor; unfold is_byte; try lia; done.
Qed.

Lemma pkcs7_pad_16_bytes data padded :
  Forall is_byte data → pkcs7_pad data default_block_size = Ok padded →
  Forall is_byte padded
  ∧ padded = data ++ list_mul (pad_len16 data) (pad_len16 data)
  ∧ 16 ≤ len padded ∧ len padded `mod` 16 = 0.
Proof.
  intros Hd. rewrite pkcs7_pad_16. intros [= <-].
  pose proof (pad_len16_range data) as Hn.
  split_and!; [|done| |].
  - apply Forall_app. split; [done|].
    apply Forall_replicate. unfold is_byte. lia.
  - rewrite len_app, len_list_mul by lia. unfold pad_len16.
    pose proof (Z.mod_le (len data) 16). unfold len in *. lia.
  - rewrite len_app, len_list_mul by lia. by apply len_mod_block.
Qed.

(** ** Session script: what is sent and what ends a run *)

(** Split off the last [n] entries of a transcript of known shape. *)
Ltac split_last n :=
  lazymatch goal with
  | |- ?l = ?k ++ _ =>
      let m := eval cbv in (length l - n)%nat in
      unify k (take m l); reflexivity
  end.

(** X5: for a plaintext line of code points below 256 (the lines this
    console carries), the ENCRYPT command is 80 20 00 00 LEN followed by the
    UTF-8 encoding of the line, as typed, and then 1 to 16 padding bytes
    equal to their number; the payload length is a multiple of 16 and all
    its entries are bytes. *)
Theorem encrypt_sends_padded_plaintext {W} (h : handler W) (w : W)
    (pre post : list event) (c : Connection) (p : list Z)
    (a : result (list Z * Z * Z)) :
  transcript h w = pre ++ EvTransmit c (0x80 :: 0x20 :: p) a :: post →
  ∃ earlier plaintext padding,
    pre = earlier ++ [EvInput "Enter plaintext: " (Ok plaintext)]
    ∧ 0x80 :: 0x20 :: p
      = [0x80; 0x20; 0x00; 0x00; len (encode plaintext ++ padding)]
        ++ encode plaintext ++ padding
    ∧ 1 ≤ len padding ≤ 16
    ∧ Forall (λ b, b = len padding) padding
    ∧ len (encode plaintext ++ padding) `mod` 16 = 0
    ∧ Forall is_byte (encode plaintext ++ padding).
Proof.
  intros Hs. all_runs h w H.
  all: locate Hs.
  all: subst.
  all: match goal with
       | E : pkcs7_pad (encode ?s) _ = Ok _ |- _ =>
           pose proof (pkcs7_pad_16_bytes _ _ (encode_bytes s) E)
             as (Hb & -> & _ & Hm);
           pose proof (pad_len16_range (encode s)) as Hn
       end.
  all: eexists _, _, _.
  all: split; [split_last 1%nat|].
  all: split; [reflexivity|].
  all: rewrite len_list_mul by lia.
  all: split_and!; [lia|lia|by apply Forall_replicate|done|done].
Qed.

(** X6: the status word of ENCRYPT is not looked at.  Once the command is
    answered and logged, whatever the status word, the response is printed
    as the ciphertext and the run ends, normally if that print succeeds. *)
Theorem encrypt_status_ignored {W} (h : handler W) (w : W)
    (pre post : list event) (c : Connection) (p ciphertext : list Z)
    (sw1 sw2 : Z) (t : text) :
  transcript h w
  = pre ++ EvTransmit c (CLA :: INS_ENCRYPT :: p) (Ok (ciphertext, sw1, sw2))
        :: EvPrint t (Ok ()) :: post →
  ∃ a,
    post = [EvPrint [Lit "Ciphertext (hex): "; ToHexString ciphertext] a]
    ∧ outcome h w = a.
Proof.
  intros Hs. all_runs h w H.
  all: locate Hs.
  all: subst.
  all: eexists; split; [reflexivity|].
  all: by repeat match goal with u : () |- _ => destruct u end.
Qed.


(** X8: what follows DECRYPT depends on the response only, never on the
    status word: if [bytes(response)] and [pkcs7_unpad] succeed, the unpadded
    bytes are printed and the run ends; otherwise the run ends with their
    exception.  In particular an empty response ends the run with
    [IndexError], and a response with an entry outside 0..255 with
    [ValueError]. *)
Theorem decrypt_result {W} (h : handler W) (w : W)
    (pre post : list event) (c : Connection) (p response : list Z)
    (sw1 sw2 : Z) (t : text) :
  transcript h w
  = pre ++ EvTransmit c (CLA :: INS_DECRYPT :: p) (Ok (response, sw1, sw2))
        :: EvPrint t (Ok ()) :: post →
  match bytes_of_ints response ≫= pkcs7_unpad with
  | Ok unpadded =>
      ∃ a, post = [EvPrint [Lit "Plaintext: "; DecodeIgnore unpadded] a]
           ∧ outcome h w = a
  | Raise e => post = [] ∧ outcome h w = Raise e
  end
  ∧ (response = [] → post = [] ∧ outcome h w = Raise IndexError)
  ∧ (¬ Forall is_byte response → post = [] ∧ outcome h w = Raise ValueError).
Proof.
  intros Hs.
  assert (match bytes_of_ints response ≫= pkcs7_unpad with
          | Ok unpadded =>
              ∃ a, post = [EvPrint [Lit "Plaintext: "; DecodeIgnore unpadded] a]
                   ∧ outcome h w = a
          | Raise e => post = [] ∧ outcome h w = Raise e
          end) as Hmain.
  { all_runs h w H.
    all: locate Hs.
    all: subst.
    all: repeat match goal with
           | E : bytes_of_ints _ = _ |- _ => rewrite E; clear E; simpl
           | E : pkcs7_unpad _ = _ |- _ => rewrite E; clear E
           end.
    all: try done.
    all: eexists; split; [reflexivity|].
    all: by repeat match goal with u : () |- _ => destruct u end. }
  split; [exact Hmain|]. split.
  - intros ->. exact Hmain.
  - intros Hb. by rewrite (bytes_of_ints_raise _ Hb) in Hmain.
Qed.

(** X9: an action that, stripped and lower-cased, is neither [encrypt]
    nor [decrypt] makes the script print the invalid-action message and end;
    the commands sent in that run are exactly SELECT, SET_KEY with the
    decoded key and SET_IV with the decoded IV. *)
Theorem invalid_action_ends_run {W} (h : handler W) (w : W)
    (pre post : list event) (action : string) :
  transcript h w
  = pre ++ EvInput "Choose action (encrypt/decrypt): " (Ok action) :: post →
  lower (strip action) ≠ "encrypt"%string →
  lower (strip action) ≠ "decrypt"%string →
  ∃ a key_hex key iv_hex iv,
    post = [EvPrint
              [Lit "Invalid action. Please choose 'encrypt' or 'decrypt'."] a]
    ∧ outcome h w = a
    ∧ transmitted (transcript h w)
      = [[0x00; 0xA4; 0x04; 0x00; 0x06; 0xAE; 0x25; 0x6C; 0xBC; 0x00; 0x01];
         [0x80; 0x10; 0x00; 0x00; len key] ++ key;
         [0x80; 0x11; 0x00; 0x00; len iv] ++ iv]
    ∧ EvInput "Enter 32-byte AES key (hex, 64 chars): " (Ok key_hex) ∈ pre
    ∧ fromhex (strip key_hex) = Ok key
    ∧ EvInput "Enter 16-byte IV (hex, 32 chars): " (Ok iv_hex) ∈ pre
    ∧ fromhex (strip iv_hex) = Ok iv.
Proof.
  intros Hs Hne Hnd. all_runs h w H.
  all: locate Hs.
  all: subst.
  all: repeat match goal with
         | E : (_ =? _)%string = true |- _ => apply String.eqb_eq in E
         end.
  all: try done.
  all: eexists _, _, _, _, _; split; [reflexivity|].
  all: split; [by repeat match goal with u : () |- _ => destruct u end|].
  all: split; [reflexivity|].
  all: split; [is_member|].
  all: split; [eassumption|].
  all: split; [is_member|eassumption].
Qed.

(** X10: a key, IV or ciphertext line that [bytes.fromhex] rejects ends the
    run with [ValueError] at that prompt: nothing is asked and no command is
    sent afterwards. *)
Theorem malformed_hex_ends_run {W} (h : handler W) (w : W)
    (pre post : list event) (prompt line : string) (e : exn) :
  prompt ∈ ["Enter 32-byte AES key (hex, 64 chars): ";
            "Enter 16-byte IV (hex, 32 chars): ";
            "Enter ciphertext (hex): "]%string →
  transcript h w = pre ++ EvInput prompt (Ok line) :: post →
  fromhex (strip line) = Raise e →
  e = ValueError
  ∧ post = []
  ∧ outcome h w = Raise ValueError
  ∧ transmitted (transcript h w) = transmitted pre.
Proof.
  intros Hp Hs He. pose proof (fromhex_raises _ _ He) as ->.
  split; [done|].
  repeat (apply elem_of_cons in Hp as [->|Hp]);
    [| | |by apply elem_of_nil in Hp].
  all: all_runs h w H.
  all: locate Hs.
  all: subst.
  all: match goal with
       | E : fromhex ?s = ?r, E' : fromhex ?s = Raise ValueError |- _ =>
           tryif constr_eq r (@Raise bytes ValueError) then fail
           else (rewrite E' in E; simplify_eq E; intros; subst)
       end.
  all: try done.
Qed.

(** X11: the script does not loop.  The instruction bytes of the commands
    sent in a run are an initial part of A4, 10, 11, 20 or of
    A4, 10, 11, 11, 30: at most five commands, never both ENCRYPT and
    DECRYPT. *)
Theorem command_order {W} (h : handler W) (w : W) :
  let sent := (λ apdu : list Z, apdu !! 1%nat) <$> transmitted (transcript h w) in
  sent `prefix_of` [Some 0xA4; Some INS_SET_KEY; Some INS_SET_IV;
                    Some INS_ENCRYPT]
  ∨ sent `prefix_of` [Some 0xA4; Some INS_SET_KEY; Some INS_SET_IV;
                      Some INS_SET_IV; Some INS_DECRYPT].
Proof.
  all_runs h w H.
  all: cbn.
  all: first [ left; eexists; reflexivity | right; eexists; reflexivity ].
Qed.

(** X12: every command is sent on the connection that [createConnection]
    returned for [all_readers[1]], and only after [connect] on it has
    returned. *)
Theorem transmit_on_connected {W} (h : handler W) (w : W)
    (pre post : list event) (c : Connection) (apdu : list Z)
    (a : result (list Z * Z * Z)) :
  transcript h w = pre ++ EvTransmit c apdu a :: post →
  ∃ all_readers reader,
    EvReaders (Ok all_readers) ∈ pre
    ∧ all_readers !! 1%nat = Some reader
    ∧ EvCreateConnection reader (Ok c) ∈ pre
    ∧ EvConnect c (Ok ()) ∈ pre.
Proof.
  intros Hs. all_runs h w H.
  all: locate Hs.
  all: subst.
  all: repeat match goal with u : () |- _ => destruct u end.
  all: match goal with
       | E : index_nat ?l _ = Ok ?r |- _ =>
           exists l, r; unfold index_nat in E;
           destruct (l !! 1%nat) eqn:El; simplify_eq E; intros; subst
       end.
  all: split_and!; [is_member|done|is_member|is_member].
Qed.

(** X13: every command sent is four header bytes, the payload length and
    the payload; header and payload entries are always bytes, so the whole
    list consists of bytes exactly when the payload has at most 255 bytes.
    Nothing in the script checks that. *)
Theorem apdus_short_iff_payload_fits {W} (h : handler W) (w : W) :
  Forall (λ apdu,
            ∃ header payload,
              apdu = header ++ len payload :: payload
              ∧ length header = 4%nat
              ∧ Forall is_byte header
              ∧ Forall is_byte payload
              ∧ (Forall is_byte apdu ↔ len payload ≤ 255))
         (transmitted (transcript h w)).
Proof.
  assert (∀ header payload : list Z,
            Forall is_byte header → Forall is_byte payload →
            Forall is_byte (header ++ len payload :: payload)
            ↔ len payload ≤ 255) as Hiff.
  { intros header payload Hh Hp. rewrite Forall_app, Forall_cons.
    unfold is_byte at 2. unfold len. split; [lia|]. intros ?.
    split_and!; [done|lia|lia|done]. }
  all_runs h w H.
  all: cbn [transmitted omap list_omap].
  all: repeat match goal with
         | E : fromhex _ = Ok _ |- _ => apply fromhex_bytes in E
         | E : pkcs7_pad (encode ?s) _ = Ok _ |- _ =>
             apply (pkcs7_pad_16_bytes _ _ (encode_bytes s)) in E as (E & _)
         end.
  all: repeat constructor.
  all: lazymatch goal with
       | |- ∃ header payload, ?a :: ?b :: ?c :: ?d :: _ :: ?pl = _ ∧ _ =>
           exists [a; b; c; d], pl;
           assert (Forall is_byte [a; b; c; d])
             by (repeat constructor; by vm_compute);
           assert (Forall is_byte pl)
             by first [assumption | repeat constructor; by vm_compute]
       end.
  all: split_and!; [reflexivity|reflexivity|assumption|assumption|].
  all: lazymatch goal with
       | H1 : Forall is_byte [?a; ?b; ?c; ?d], H2 : Forall is_byte ?pl
         |- Forall is_byte (?a :: ?b :: ?c :: ?d :: _ :: ?pl) ↔ _ =>
           exact (Hiff [a; b; c; d] pl H1 H2)
       end.
Qed.

(** X14: a run ends normally only with one of the three final prints (the
    ciphertext, the plaintext or the invalid-action message), after SELECT
    was answered with status word (0x90, 0x00); the commands sent before
    that print begin with SELECT, SET_KEY and SET_IV. *)
Theorem normal_end {W} (h : handler W) (w : W) :
  outcome h w = Ok () →
  ∃ earlier final c response key iv others,
    transcript h w = earlier ++ [EvPrint final (Ok ())]
    ∧ ((∃ ciphertext,
          final = [Lit "Ciphertext (hex): "; ToHexString ciphertext])
       ∨ (∃ unpadded, final = [Lit "Plaintext: "; DecodeIgnore unpadded])
       ∨ final = [Lit "Invalid action. Please choose 'encrypt' or 'decrypt'."])
    ∧ EvTransmit c
        [0x00; 0xA4; 0x04; 0x00; 0x06; 0xAE; 0x25; 0x6C; 0xBC; 0x00; 0x01]
        (Ok (response, 0x90, 0x00)) ∈ earlier
    ∧ transmitted earlier
      = [0x00; 0xA4; 0x04; 0x00; 0x06; 0xAE; 0x25; 0x6C; 0xBC; 0x00; 0x01]
        :: ([0x80; 0x10; 0x00; 0x00; len key] ++ key)
        :: ([0x80; 0x11; 0x00; 0x00; len iv] ++ iv)
        :: others.
Proof.
  intros Hout. all_runs h w H.
  all: try discriminate Hout.
  all: match goal with
       | E : sw_ne _ _ _ _ = false |- _ =>
           apply sw_ne_false in E; injection E as -> ->
       end.
  all: repeat match goal with u : () |- _ => destruct u end.
  all: eexists _, _, _, _, _, _, _.
  all: split; [split_last 1%nat|].
  all: cbn [take].
  all: split; [eauto|].
  all: split; [is_member|reflexivity].
Qed.

(** ** The session theorems on the simulated environment, continued *)

(** The user types [hello]: eleven bytes 0B follow the five letters. *)
Lemma encrypt_sends_padded_plaintext_witness :
  let tr := transcript sim encrypt_world in
  let payload := encode "hello" ++ replicate 11 0x0B in
  tr = take 14 tr
       ++ EvTransmit 0%nat (0x80 :: 0x20 :: 0x00 :: 0x00 :: 0x10 :: payload)
            (Ok (payload, 0x90, 0x00))
       :: drop 15 tr
  ∧ ∃ earlier plaintext padding,
      take 14 tr = earlier ++ [EvInput "Enter plaintext: " (Ok plaintext)]
      ∧ 0x80 :: 0x20 :: 0x00 :: 0x00 :: 0x10 :: payload
        = [0x80; 0x20; 0x00; 0x00; len (encode plaintext ++ padding)]
          ++ encode plaintext ++ padding
      ∧ 1 ≤ len padding ≤ 16
      ∧ Forall (λ b, b = len padding) padding
      ∧ len (encode plaintext ++ padding) `mod` 16 = 0
      ∧ Forall is_byte (encode plaintext ++ padding).
Proof.
  intros tr payload.
  assert (Hs : tr = take 14 tr
       ++ EvTransmit 0%nat (0x80 :: 0x20 :: 0x00 :: 0x00 :: 0x10 :: payload)
            (Ok (payload, 0x90, 0x00))
       :: drop 15 tr) by (vm_compute; reflexivity).
  split; [exact Hs|].
  exact (encrypt_sends_padded_plaintext sim encrypt_world _ _ _ _ _ Hs).
Defined.

(** The same session: the echoed payload is printed as the ciphertext. *)
Lemma encrypt_status_ignored_witness :
  let tr := transcript sim encrypt_world in
  let payload := encode "hello" ++ replicate 11 0x0B in
  tr = take 14 tr
       ++ EvTransmit 0%nat (CLA :: INS_ENCRYPT :: drop 2 (encrypt_apdu payload))
            (Ok (payload, 0x90, 0x00))
       :: EvPrint (transmit_line (encrypt_apdu payload) payload 0x90 0x00)
            (Ok ())
       :: drop 16 tr
  ∧ ∃ a,
      drop 16 tr = [EvPrint [Lit "Ciphertext (hex): "; ToHexString payload] a]
      ∧ outcome sim encrypt_world = a.
Proof.
  intros tr payload.
  assert (Hs : tr = take 14 tr
       ++ EvTransmit 0%nat (CLA :: INS_ENCRYPT :: drop 2 (encrypt_apdu payload))
            (Ok (payload, 0x90, 0x00))
       :: EvPrint (transmit_line (encrypt_apdu payload) payload 0x90 0x00)
            (Ok ())
       :: drop 16 tr) by (vm_compute; reflexivity).
  split; [exact Hs|].
  exact (encrypt_status_ignored sim encrypt_world _ _ _ _ _ _ _ _ Hs).
Defined.


(** The card refuses DECRYPT with an empty response: [IndexError]. *)
Lemma decrypt_result_witness :
  let tr := transcript sim refused_decrypt_world in
  let ct := [0x00; 0x11; 0x22; 0x33; 0x44; 0x55; 0x66; 0x77; 0x88; 0x99;
             0xaa; 0xbb; 0xcc; 0xdd; 0xee; 0x02] in
  tr = take 16 tr
       ++ EvTransmit 0%nat (CLA :: INS_DECRYPT :: drop 2 (decrypt_apdu ct))
            (Ok ([], 0x6A, 0x80))
       :: EvPrint (transmit_line (decrypt_apdu ct) [] 0x6A 0x80) (Ok ())
       :: []
  ∧ outcome sim refused_decrypt_world = Raise IndexError.
Proof.
  intros tr ct.
  assert (Hs : tr = take 16 tr
       ++ EvTransmit 0%nat (CLA :: INS_DECRYPT :: drop 2 (decrypt_apdu ct))
            (Ok ([], 0x6A, 0x80))
       :: EvPrint (transmit_line (decrypt_apdu ct) [] 0x6A 0x80) (Ok ())
       :: []) by (vm_compute; reflexivity).
  split; [exact Hs|].
  apply (decrypt_result sim refused_decrypt_world _ _ _ _ _ _ _ _ Hs).
  reflexivity.
Defined.

(** The action [sign]. *)
Lemma invalid_action_ends_run_witness :
  let tr := transcript sim invalid_action_world in
  tr = take 12 tr
       ++ EvInput "Choose action (encrypt/decrypt): " (Ok "sign") :: drop 13 tr
  ∧ lower (strip "sign") ≠ "encrypt"%string
  ∧ lower (strip "sign") ≠ "decrypt"%string
  ∧ ∃ a key_hex key iv_hex iv,
      drop 13 tr
      = [EvPrint
           [Lit "Invalid action. Please choose 'encrypt' or 'decrypt'."] a]
      ∧ outcome sim invalid_action_world = a
      ∧ transmitted tr
        = [[0x00; 0xA4; 0x04; 0x00; 0x06; 0xAE; 0x25; 0x6C; 0xBC; 0x00; 0x01];
           [0x80; 0x10; 0x00; 0x00; len key] ++ key;
           [0x80; 0x11; 0x00; 0x00; len iv] ++ iv]
      ∧ EvInput "Enter 32-byte AES key (hex, 64 chars): " (Ok key_hex)
          ∈ take 12 tr
      ∧ fromhex (strip key_hex) = Ok key
      ∧ EvInput "Enter 16-byte IV (hex, 32 chars): " (Ok iv_hex) ∈ take 12 tr
      ∧ fromhex (strip iv_hex) = Ok iv.
Proof.
  intros tr.
  assert (Hs : tr = take 12 tr
       ++ EvInput "Choose action (encrypt/decrypt): " (Ok "sign") :: drop 13 tr)
    by (vm_compute; reflexivity).
  assert (He : lower (strip "sign") ≠ "encrypt"%string)
    by (vm_compute; discriminate).
  assert (Hd : lower (strip "sign") ≠ "decrypt"%string)
    by (vm_compute; discriminate).
  split_and!; [exact Hs|exact He|exact Hd|].
  exact (invalid_action_ends_run sim invalid_action_world _ _ _ Hs He Hd).
Defined.

(** The key line [xyz]. *)
Lemma malformed_hex_ends_run_witness :
  let tr := transcript sim bad_key_world in
  tr = take 6 tr
       ++ EvInput "Enter 32-byte AES key (hex, 64 chars): " (Ok "xyz") :: []
  ∧ fromhex (strip "xyz") = Raise ValueError
  ∧ outcome sim bad_key_world = Raise ValueError
  ∧ transmitted tr = transmitted (take 6 tr).
Proof.
  intros tr.
  assert (Hs : tr = take 6 tr
       ++ EvInput "Enter 32-byte AES key (hex, 64 chars): " (Ok "xyz") :: [])
    by (vm_compute; reflexivity).
  assert (He : fromhex (strip "xyz") = Raise ValueError)
    by (vm_compute; reflexivity).
  split_and!; [exact Hs|exact He|..];
    apply (malformed_hex_ends_run sim bad_key_world _ _ _ _ _
             (list_elem_of_here _ _) Hs He).
Defined.

(** The SELECT command of a session goes to the connection to Reader 1. *)
Lemma transmit_on_connected_witness :
  let tr := transcript sim encrypt_world in
  tr = take 4 tr
       ++ EvTransmit 0%nat select_apdu (Ok (APPLET_AID, 0x90, 0x00))
       :: drop 5 tr
  ∧ ∃ all_readers reader,
      EvReaders (Ok all_readers) ∈ take 4 tr
      ∧ all_readers !! 1%nat = Some reader
      ∧ EvCreateConnection reader (Ok 0%nat) ∈ take 4 tr
      ∧ EvConnect 0%nat (Ok ()) ∈ take 4 tr.
Proof.
  intros tr.
  assert (Hs : tr = take 4 tr
       ++ EvTransmit 0%nat select_apdu (Ok (APPLET_AID, 0x90, 0x00))
       :: drop 5 tr) by (vm_compute; reflexivity).
  split; [exact Hs|].
  exact (transmit_on_connected sim encrypt_world _ _ _ _ _ Hs).
Defined.

(** The encrypt session ends normally. *)
Lemma normal_end_witness :
  outcome sim encrypt_world = Ok ()
  ∧ ∃ earlier final c response key iv others,
      transcript sim encrypt_world = earlier ++ [EvPrint final (Ok ())]
      ∧ ((∃ ciphertext,
            final = [Lit "Ciphertext (hex): "; ToHexString ciphertext])
         ∨ (∃ unpadded, final = [Lit "Plaintext: "; DecodeIgnore unpadded])
         ∨ final
           = [Lit "Invalid action. Please choose 'encrypt' or 'decrypt'."])
      ∧ EvTransmit c
          [0x00; 0xA4; 0x04; 0x00; 0x06; 0xAE; 0x25; 0x6C; 0xBC; 0x00; 0x01]
          (Ok (response, 0x90, 0x00)) ∈ earlier
      ∧ transmitted earlier
        = [0x00; 0xA4; 0x04; 0x00; 0x06; 0xAE; 0x25; 0x6C; 0xBC; 0x00; 0x01]
          :: ([0x80; 0x10; 0x00; 0x00; len key] ++ key)
          :: ([0x80; 0x11; 0x00; 0x00; len iv] ++ iv)
          :: others.
Proof.
  assert (Ho : outcome sim encrypt_world = Ok ()) by (vm_compute; reflexivity).
  split; [exact Ho|].
  exact (normal_end sim encrypt_world Ho).
Defined.
